(** * multipledispatch.variadic: variadic signature types

    A shallow embedding of [multipledispatch/variadic.py] and of the part of
    the host ([typing], [pytypes], the built-in [hash]) its behaviour rests on.

    Layout:
    - the type objects the module handles ([ty]) and Python values ([obj]);
    - host equality on type objects, [typing.Union[...]] canonicalisation;
    - the module itself: [safe_subtype], [VariadicSignatureType] with
      [__subclasscheck__], [__eq__], [__hash__], [isvariadic] and
      [VariadicSignatureMeta.__getitem__];
    - a reference oracle standing for [pytypes.is_subtype];
    - the properties.

    Conventions.  Classes are told apart by name.  [typing.Union] is the one
    of Python 3.7 and later: it flattens and drops duplicates, and does not
    prune an alternative that is a subclass of another.  A call that
    allocates a class object threads the identity of the next object.
    [utils.typename] only feeds the class name and is taken as a function of
    the host. *)

From Stdlib Require Import List String ZArith Bool Lia Permutation.
Import ListNotations.
Open Scope string_scope.

(** ** Type objects and values *)

#[local] Unset Elimination Schemes.

(** A type object as the module sees it.
    - [TClass n]: an ordinary class, identified by its name (class objects
      compare by identity);
    - [TUnion args]: [typing.Union[...]] with [__args__ = args];
    - [TTuple t]: [typing.Tuple[t, ...]], the unbounded repetition of [t];
    - [TVariadic ident name vt]: a class made by [VariadicSignatureType(name,
      (), dict(variadic_type=vt, __slots__=()))]; [ident] is the identity of
      the freshly allocated class object. *)
Inductive ty : Type :=
| TClass (name : string)
| TUnion (args : list ty)
| TTuple (elt : ty)
| TVariadic (ident : nat) (name : string) (variadic_type : ty).

(** A Python value that can be handed to [Variadic[...]]: a plain number
    (not a type), a type object, or a tuple. *)
Inductive obj : Type :=
| OInt (z : Z)
| OType (t : ty)
| OTuple (items : list obj).

#[local] Set Elimination Schemes.

(** Induction over [ty] that reaches the arguments of a union. *)
Fixpoint ty_ind' (P : ty -> Prop)
    (HClass : forall n, P (TClass n))
    (HUnion : forall args, Forall P args -> P (TUnion args))
    (HTuple : forall t, P t -> P (TTuple t))
    (HVar : forall i n vt, P vt -> P (TVariadic i n vt))
    (t : ty) {struct t} : P t :=
  match t with
  | TClass n => HClass n
  | TUnion args =>
      HUnion args
        ((fix all (l : list ty) : Forall P l :=
            match l with
            | [] => Forall_nil P
            | x :: r =>
                Forall_cons x (ty_ind' P HClass HUnion HTuple HVar x) (all r)
            end) args)
  | TTuple e => HTuple e (ty_ind' P HClass HUnion HTuple HVar e)
  | TVariadic i n vt => HVar i n vt (ty_ind' P HClass HUnion HTuple HVar vt)
  end.

(** The attribute [variadic_type] of a class made by [VariadicSignatureType];
    it is only read after [isvariadic] has answered [True]. *)
Definition variadic_type (t : ty) : ty :=
  match t with
  | TVariadic _ _ vt => vt
  | _ => t
  end.

(** ** Host equality [a == b] on type objects

    - two classes are equal when they are the same class;
    - two unions are equal when [frozenset(__args__)] agree;
    - two [Tuple[t, ...]] are equal when their arguments are;
    - [VariadicSignatureType.__eq__] (lines 25-40 of the module):
      [isvariadic(other) and self.variadic_type == other.variadic_type];
    - objects of different kinds are unequal. *)
Fixpoint ty_eqb (a b : ty) {struct a} : bool :=
  match a, b with
  | TClass x, TClass y => String.eqb x y
  | TUnion xs, TUnion ys =>
      forallb (fun x => existsb (ty_eqb x) ys) xs
      && forallb (fun y => existsb (fun x => ty_eqb x y) xs) ys
  | TTuple x, TTuple y => ty_eqb x y
  | TVariadic _ _ x, TVariadic _ _ y => ty_eqb x y
  | _, _ => false
  end.

(** [x in l] for a list or set of type objects: membership up to [==]. *)
Definition mem (x : ty) (l : list ty) : bool := existsb (ty_eqb x) l.

(** Every member of [l1] has an equal in [l2]. *)
Definition covered (l1 l2 : list ty) : Prop :=
  forall x, In x l1 -> exists y, In y l2 /\ ty_eqb x y = true.

(** [set(l1) == set(l2)]. *)
Definition same_set (l1 l2 : list ty) : Prop := covered l1 l2 /\ covered l2 l1.

(** No two members of the list are equal: the list is the listing of a set. *)
Fixpoint distinct (l : list ty) : Prop :=
  match l with
  | [] => True
  | x :: r => mem x r = false /\ distinct r
  end.

(** [x] equals [b], or an alternative of [b], at any depth of unions. *)
Inductive inside (x : ty) : ty -> Prop :=
| inside_here (b : ty) : ty_eqb x b = true -> inside x b
| inside_alternative (y : ty) (bs : list ty) :
    In y bs -> inside x y -> inside x (TUnion bs).

(** ** Outcomes of a call *)

Inductive exn : Type :=
| ValueError (msg : string)
| TypeError (msg : string).

Inductive result (A : Type) : Type :=
| Ok (a : A)
| Raise (e : exn).

Arguments Ok {A} a.
Arguments Raise {A} e.

(** ** [isinstance] and truth of class objects *)

(** The classes the module tests against, and the class of typing's
    subscripted forms, which are objects but not classes. *)
Inductive pyclass : Type :=
| C_int
| C_tuple
| C_type
| C_VariadicSignatureType
| C_GenericAlias.

(** [type(o)]. An ordinary class has [type] (or a metaclass of its own, which
    derives from [type]) as its class. *)
Definition type_of (o : obj) : pyclass :=
  match o with
  | OInt _ => C_int
  | OTuple _ => C_tuple
  | OType (TClass _) => C_type
  | OType (TUnion _) => C_GenericAlias
  | OType (TTuple _) => C_GenericAlias
  | OType (TVariadic _ _ _) => C_VariadicSignatureType
  end.

Definition pyclass_eqb (c d : pyclass) : bool :=
  match c, d with
  | C_int, C_int | C_tuple, C_tuple | C_type, C_type
  | C_VariadicSignatureType, C_VariadicSignatureType
  | C_GenericAlias, C_GenericAlias => true
  | _, _ => false
  end.

(** [issubclass(c, d)] among these classes: the one proper link is
    [class VariadicSignatureType(type)] (line 18). *)
Definition class_issubclass (c d : pyclass) : bool :=
  match c, d with
  | C_VariadicSignatureType, C_type => true
  | _, _ => pyclass_eqb c d
  end.

(** [isinstance(o, (c1, ..., cn))]. *)
Definition isinstance (o : obj) (classes : list pyclass) : bool :=
  existsb (class_issubclass (type_of o)) classes.

(** [bool(c)] for a class object [c]: neither [type] nor any class above
    defines [__bool__] or [__len__], so a class object is true. *)
Definition class_truth (c : pyclass) : bool := true.

(** ** [typing.Union[...]] and [typing.Tuple[t, ...]]

    [Union[params]]: no parameters is a [TypeError]; every parameter must be a
    type; unions among the parameters are flattened, duplicates dropped
    keeping the first occurrence, and a single remaining parameter is returned
    as itself. *)
Fixpoint type_check_all (params : list obj) : option (list ty) :=
  match params with
  | [] => Some []
  | OType t :: rest =>
      match type_check_all rest with
      | Some ts => Some (t :: ts)
      | None => None
      end
  | _ :: _ => None
  end.

Definition is_Union (t : ty) : bool :=
  match t with
  | TUnion _ => true
  | _ => false
  end.

Definition get_Union_params (t : ty) : list ty :=
  match t with
  | TUnion args => args
  | _ => []
  end.

Definition is_Tuple (t : ty) : bool :=
  match t with
  | TTuple _ => true
  | _ => false
  end.

Definition flatten_params (params : list ty) : list ty :=
  flat_map (fun p => if is_Union p then get_Union_params p else [p]) params.

(** Drop the members already seen, keeping first occurrences. *)
Fixpoint remove_dups (seen params : list ty) : list ty :=
  match params with
  | [] => []
  | p :: rest =>
      if mem p seen then remove_dups seen rest
      else p :: remove_dups (p :: seen) rest
  end.

Definition Union_of (params : list ty) : ty :=
  match remove_dups [] (flatten_params params) with
  | [t] => t
  | ts => TUnion ts
  end.

Definition Union_getitem (parameters : list obj) : result ty :=
  match parameters with
  | [] => Raise (TypeError "Cannot take a Union of no types.")
  | _ :: _ =>
      match type_check_all parameters with
      | None => Raise (TypeError "Union[arg, ...]: each arg must be a type.")
      | Some ts => Ok (Union_of ts)
      end
  end.

(** The members of an element-type set: the alternatives of a union, or the
    single type. *)
Definition members (t : ty) : list ty :=
  if is_Union t then get_Union_params t else [t].

(** A type object as [typing] builds it at the top: no alternative of a union
    is itself a union. *)
Definition flat (t : ty) : bool :=
  forallb (fun a => negb (is_Union a)) (get_Union_params t).

(** The shape [typing.Union] gives its results: a type that is not a union,
    or a union of at least two alternatives, none of them a union, no two of
    them equal. *)
Definition canonical (t : ty) : Prop :=
  is_Union t = true ->
  flat t = true /\
  distinct (get_Union_params t) /\
  (2 <= List.length (get_Union_params t))%nat.

(** ** What the module imports

    - [is_subtype]: [pytypes.is_subtype], the structural subtype oracle;
    - [typename]: [multipledispatch.utils.typename], used for the class name
      only;
    - [hash_id]: the hash of a class or singleton object, which hashes by
      identity (the object is named here);
    - [hash_tuple]: the hash of a tuple, from the hashes of its items;
    - [hash_frozenset]: the hash of a frozenset, from the hashes of its
      members. *)
Class Host : Type := {
  is_subtype : ty -> ty -> bool;
  typename : list obj -> string;
  hash_id : string -> Z;
  hash_tuple : list Z -> Z;
  hash_frozenset : list Z -> Z
}.

(** ** The module *)

(** [safe_subtype(a, b)], lines 10-15. *)
Definition safe_subtype `{Host} (a b : ty) : bool :=
  if is_Union a
  then existsb (fun tp => is_subtype tp b) (get_Union_params a)
  else is_subtype a b.

(** [isvariadic(obj)], line 66. *)
Definition isvariadic (o : obj) : bool :=
  isinstance o [C_VariadicSignatureType].

(** [VariadicSignatureType.__subclasscheck__(self, subclass)], lines 20-23. *)
Definition subclasscheck `{Host} (self subclass : ty) : bool :=
  let other_type :=
    if isvariadic (OType subclass) then variadic_type subclass else subclass in
  is_subtype (TTuple other_type) (TTuple (variadic_type self)).

(** [VariadicSignatureType.__eq__(self, other)], lines 39-40; [and] reads
    [other.variadic_type] only when [isvariadic(other)] holds. *)
Definition VariadicSignatureType_eq (self : ty) (other : obj) : bool :=
  isvariadic other &&
  match other with
  | OType o => ty_eqb (variadic_type self) (variadic_type o)
  | _ => false
  end.

(** The host's [hash] on type objects.  A union hashes as
    [hash((Union, frozenset(__args__)))], [Tuple[t, ...]] as
    [hash((tuple, (t, Ellipsis)))]; the last case is
    [VariadicSignatureType.__hash__]. *)
Fixpoint py_hash `{Host} (t : ty) {struct t} : Z :=
  match t with
  | TClass n => hash_id n
  | TUnion args =>
      hash_tuple
        [hash_id "typing.Union";
         hash_frozenset
           ((fix members_hashes (seen l : list ty) {struct l} : list Z :=
               match l with
               | [] => []
               | x :: r =>
                   if mem x seen then members_hashes seen r
                   else py_hash x :: members_hashes (x :: seen) r
               end) [] args)]
  | TTuple e => hash_tuple [hash_id "tuple"; hash_tuple [py_hash e; hash_id "Ellipsis"]]
  | TVariadic _ _ vt => hash_tuple [hash_id "VariadicSignatureType"; py_hash vt]
  end.

(** [VariadicSignatureType.__hash__(self)], line 43:
    [hash((type(self), self.variadic_type))]. *)
Definition VariadicSignatureType_hash `{Host} (self : ty) : Z :=
  hash_tuple [hash_id "VariadicSignatureType"; py_hash (variadic_type self)].

(** The test of line 75: [True] when [__getitem__] raises its [ValueError]. *)
Definition getitem_rejects (variadic_type : obj) : bool :=
  negb (isinstance variadic_type [C_type; C_tuple]
        || class_truth (type_of variadic_type)).

Definition getitem_message : string :=
  "Variadic types must be type or tuple of types (Variadic[int] or Variadic[(int, float)]".

(** Lines 79-80: a value that is not a tuple becomes a one-item tuple. *)
Definition as_tuple (variadic_type : obj) : list obj :=
  match variadic_type with
  | OTuple items => items
  | _ => [variadic_type]
  end.

(** The class name of line 82, ['Variadic[%s]' % typename(variadic_type)]. *)
Definition class_name `{Host} (items : list obj) : string :=
  "Variadic[" ++ typename items ++ "]".

(** [VariadicSignatureMeta.__getitem__(self, variadic_type)], lines 74-85,
    that is [Variadic[variadic_type]].  [next] is the identity the next
    allocated class object gets; a successful call allocates one class. *)
Definition Variadic_getitem `{Host} (variadic_type : obj) (next : nat)
  : result ty * nat :=
  if getitem_rejects variadic_type
  then (Raise (ValueError getitem_message), next)
  else
    let variadic_type := as_tuple variadic_type in
    let name := class_name variadic_type in
    match Union_getitem variadic_type with
    | Raise e => (Raise e, next)
    | Ok vt => (Ok (TVariadic next name vt), S next)
    end.

(** ** What the properties ask of the oracle and of the hash

    [pytypes.is_subtype] is not part of the module.  The rules of it that a
    property rests on are named here and appear as hypotheses of that
    property. *)

(** [pytypes] answers [True] at once when [subclass == superclass]. *)
Definition accepts_equal `{Host} : Prop :=
  forall a b, ty_eqb a b = true -> is_subtype a b = true.

(** [Tuple[a, ...]] against [Tuple[b, ...]] is [a] against [b]. *)
Definition tuple_covariant `{Host} : Prop :=
  forall a b, is_subtype (TTuple a) (TTuple b) = is_subtype a b.

(** A type that is not a union is below a union when it is below one of its
    alternatives. *)
Definition union_right_any `{Host} : Prop :=
  forall a bs,
    is_Union a = false ->
    is_subtype a (TUnion bs) = existsb (is_subtype a) bs.

(** A union is below a type (other than a [Tuple]) when all of its
    alternatives are. *)
Definition union_left_all `{Host} : Prop :=
  forall args b,
    is_Tuple b = false ->
    is_subtype (TUnion args) b = forallb (fun a => is_subtype a b) args.

(** The hash of a frozenset does not depend on the order of its members. *)
Definition frozenset_hash_unordered `{Host} : Prop :=
  forall xs ys, Permutation xs ys -> hash_frozenset xs = hash_frozenset ys.

(** ** A reference host

    A host that follows the rules of [pytypes.is_subtype] on classes, unions,
    [Tuple[t, ...]] and variadic classes, over a small table of built-in
    classes.  It instantiates the properties at concrete types. *)

(** Built-in [issubclass] on the named classes: every class is below itself
    and [object], [bool] is below [int]; [pytypes] adds the numeric tower
    [int <= float <= complex]. *)
Definition builtin_issubclass (a b : string) : bool :=
  String.eqb a b
  || String.eqb b "object"
  || (String.eqb a "bool" && String.eqb b "int")
  || (String.eqb a "int" && (String.eqb b "float" || String.eqb b "complex"))
  || (String.eqb a "float" && String.eqb b "complex").

(** The order of the tests follows [pytypes]: equal types first, then the
    superclass ([Tuple], then [Union]), then a union subclass; a variadic
    class as superclass is reached through the built-in [issubclass], that is
    through [__subclasscheck__].  Two points where [pytypes] departs from the
    built-in relation are kept: its [Tuple] test accepts a union subclass
    without asking the alternatives, and it reads the class [tuple] as
    [typing.Tuple], so that [tuple] and [Tuple[t, ...]] are below [tuple]
    only, not below [object]. *)
Fixpoint reference_is_subtype (a : ty) {struct a} : ty -> bool :=
  fix against (b : ty) {struct b} : bool :=
    ty_eqb a b ||
    match b with
    | TTuple b' =>
        match a with
        | TTuple a' => reference_is_subtype a' b'
        | TUnion _ => true
        | _ => false
        end
    | TUnion bs =>
        match a with
        | TUnion args => forallb (fun x => reference_is_subtype x b) args
        | _ => existsb against bs
        end
    | TClass cb =>
        match a with
        | TClass ca => negb (String.eqb ca "tuple") && builtin_issubclass ca cb
        | TUnion args => forallb (fun x => reference_is_subtype x b) args
        | TTuple _ => String.eqb cb "tuple"
        | TVariadic _ _ _ => String.eqb cb "object"
        end
    | TVariadic _ _ vt =>
        match a with
        | TUnion args => forallb (fun x => reference_is_subtype x b) args
        | TVariadic _ _ vt' => reference_is_subtype vt' vt
        | _ => against vt
        end
    end.

(** Names as the docstring of [Variadic] shows them: [Variadic[int]],
    [Variadic[(int, str)]]. *)
Definition reference_name (o : obj) : string :=
  match o with
  | OType (TClass n) => n
  | OType (TVariadic _ n _) => n
  | OType (TUnion _) => "Union"
  | OType (TTuple _) => "Tuple"
  | OInt _ => "?"
  | OTuple _ => "?"
  end.

Definition reference_typename (items : list obj) : string :=
  match items with
  | [x] => reference_name x
  | _ => "(" ++ String.concat ", " (map reference_name items) ++ ")"
  end.

Fixpoint string_code (s : string) : Z :=
  match s with
  | EmptyString => 0%Z
  | String c r => (Z.of_nat (Ascii.nat_of_ascii c) + 31 * string_code r)%Z
  end.

#[export] Instance reference_host : Host := {
  is_subtype := reference_is_subtype;
  typename := reference_typename;
  hash_id := string_code;
  hash_tuple := fold_right (fun h acc => (h + 1000003 * acc)%Z) 7%Z;
  hash_frozenset := fold_right Z.add 0%Z
}.

Definition t_int : ty := TClass "int".
Definition t_str : ty := TClass "str".
Definition t_float : ty := TClass "float".

(** [Variadic[(int, str)]] as the first class allocated. *)
Definition Variadic_int_str : ty :=
  TVariadic 0 "Variadic[(int, str)]" (TUnion [t_int; t_str]).

(** [Variadic[int]] as the first class allocated. *)
Definition Variadic_int : ty := TVariadic 0 "Variadic[int]" t_int.



(** *** [==] is an equivalence *)

Lemma ty_eqb_union_raw (xs ys : list ty) :
  ty_eqb (TUnion xs) (TUnion ys) = true <->
  (forall x, In x xs -> exists y, In y ys /\ ty_eqb x y = true) /\
  (forall y, In y ys -> exists x, In x xs /\ ty_eqb x y = true).
Proof.
  simpl. rewrite andb_true_iff, !forallb_forall.
  split; intros [H1 H2]; split; intros z Hz.
  - apply existsb_exists. apply H1, Hz.
  - generalize (H2 z Hz). rewrite existsb_exists. trivial.
  - apply existsb_exists. apply H1, Hz.
  - apply existsb_exists. apply H2, Hz.
Qed.

Lemma ty_eqb_refl (a : ty) : ty_eqb a a = true.
Proof.
  induction a as [n | args IH | t IH | i n vt IH] using ty_ind'.
  - apply String.eqb_refl.
  - apply ty_eqb_union_raw. rewrite Forall_forall in IH.
    split; intros x Hx; exists x; auto.
  - exact IH.
  - exact IH.
Qed.

Lemma ty_eqb_sym_true (a : ty) :
  forall b, ty_eqb a b = true -> ty_eqb b a = true.
Proof.
  induction a as [n | args IH | t IH | i n vt IH] using ty_ind';
    intros [m | args' | t' | i' m vt']; simpl; try discriminate.
  - rewrite String.eqb_sym. trivial.
  - intros H. change (ty_eqb (TUnion args) (TUnion args') = true) in H.
    change (ty_eqb (TUnion args') (TUnion args) = true).
    rewrite ty_eqb_union_raw in *. rewrite Forall_forall in IH.
    destruct H as [H1 H2]. split.
    + intros y Hy. destruct (H2 y Hy) as [x [Hx E]]. exists x. auto.
    + intros x Hx. destruct (H1 x Hx) as [y [Hy E]]. exists y. auto.
  - apply IH.
  - apply IH.
Qed.

Lemma ty_eqb_sym (a b : ty) : ty_eqb a b = ty_eqb b a.
Proof.
  destruct (ty_eqb a b) eqn:E1, (ty_eqb b a) eqn:E2; trivial.
  - apply ty_eqb_sym_true in E1. congruence.
  - apply ty_eqb_sym_true in E2. congruence.
Qed.

Lemma ty_eqb_trans (a : ty) :
  forall b c, ty_eqb a b = true -> ty_eqb b c = true -> ty_eqb a c = true.
Proof.
  induction a as [n | args IH | t IH | i n vt IH] using ty_ind';
    intros [m | args' | t' | i' m vt'] [k | args'' | t'' | i'' k vt''];
    simpl; try discriminate.
  - rewrite !String.eqb_eq. congruence.
  - intros H H'.
    change (ty_eqb (TUnion args) (TUnion args') = true) in H.
    change (ty_eqb (TUnion args') (TUnion args'') = true) in H'.
    change (ty_eqb (TUnion args) (TUnion args'') = true).
    rewrite ty_eqb_union_raw in *. rewrite Forall_forall in IH.
    destruct H as [H1 H2], H' as [H1' H2']. split.
    + intros x Hx. destruct (H1 x Hx) as [y [Hy E]].
      destruct (H1' y Hy) as [z [Hz E']]. exists z. eauto.
    + intros z Hz. destruct (H2' z Hz) as [y [Hy E']].
      destruct (H2 y Hy) as [x [Hx E]]. exists x. eauto.
  - apply IH.
  - apply IH.
Qed.

Lemma ty_eqb_union (xs ys : list ty) :
  ty_eqb (TUnion xs) (TUnion ys) = true <-> same_set xs ys.
Proof.
  rewrite ty_eqb_union_raw. unfold same_set, covered.
  split; intros [H1 H2]; split; trivial; intros y Hy;
    destruct (H2 y Hy) as [x [Hx E]]; exists x;
    rewrite ty_eqb_sym; auto.
Qed.

(** *** Sets of type objects *)

Lemma mem_true (x : ty) (l : list ty) :
  mem x l = true <-> exists y, In y l /\ ty_eqb x y = true.
Proof. unfold mem. apply existsb_exists. Qed.

Lemma mem_false (x : ty) (l : list ty) :
  mem x l = false <-> forall y, In y l -> ty_eqb x y = false.
Proof.
  split.
  - intros H y Hy. destruct (ty_eqb x y) eqn:E; trivial.
    assert (mem x l = true) by (apply mem_true; eauto). congruence.
  - intros H. destruct (mem x l) eqn:E; trivial.
    apply mem_true in E. destruct E as [y [Hy E]].
    rewrite (H y Hy) in E. discriminate.
Qed.

Lemma covered_refl (l : list ty) : covered l l.
Proof. intros x Hx. exists x. auto using ty_eqb_refl. Qed.

Lemma covered_trans (l1 l2 l3 : list ty) :
  covered l1 l2 -> covered l2 l3 -> covered l1 l3.
Proof.
  intros H12 H23 x Hx. destruct (H12 x Hx) as [y [Hy E]].
  destruct (H23 y Hy) as [z [Hz E']]. exists z. eauto using ty_eqb_trans.
Qed.

Lemma covered_incl (l1 l2 : list ty) : incl l1 l2 -> covered l1 l2.
Proof. intros H x Hx. exists x. auto using ty_eqb_refl. Qed.

Lemma same_set_refl (l : list ty) : same_set l l.
Proof. split; apply covered_refl. Qed.

Lemma same_set_sym (l1 l2 : list ty) : same_set l1 l2 -> same_set l2 l1.
Proof. intros [H1 H2]. split; assumption. Qed.

Lemma same_set_trans (l1 l2 l3 : list ty) :
  same_set l1 l2 -> same_set l2 l3 -> same_set l1 l3.
Proof. intros [H1 H2] [H3 H4]. split; eauto using covered_trans. Qed.

Lemma same_set_incl (l1 l2 : list ty) :
  incl l1 l2 -> incl l2 l1 -> same_set l1 l2.
Proof. intros H1 H2. split; apply covered_incl; assumption. Qed.

(** What [remove_dups] keeps comes from the list and was not seen before. *)
Lemma remove_dups_In (l : list ty) :
  forall seen x, In x (remove_dups seen l) -> In x l /\ mem x seen = false.
Proof.
  induction l as [|p rest IH]; simpl; intros seen x Hx; [contradiction|].
  destruct (mem p seen) eqn:E.
  - apply IH in Hx. tauto.
  - destruct Hx as [->|Hx]; [tauto|].
    apply IH in Hx. destruct Hx as [Hin Hm]. split; [tauto|].
    simpl in Hm. apply orb_false_iff in Hm. tauto.
Qed.

(** Every member of the list was seen before or has an equal that is kept. *)
Lemma remove_dups_covers (l : list ty) :
  forall seen x, In x l ->
    mem x seen = true \/
    exists y, In y (remove_dups seen l) /\ ty_eqb x y = true.
Proof.
  induction l as [|p rest IH]; simpl; intros seen x Hx; [contradiction|].
  destruct Hx as [->|Hx].
  - destruct (mem x seen) eqn:E; [tauto|].
    right. exists x. simpl. auto using ty_eqb_refl.
  - destruct (mem p seen) eqn:E.
    + apply IH, Hx.
    + destruct (IH (p :: seen) x Hx) as [Hm | [y [Hy Ey]]].
      * simpl in Hm. apply orb_true_iff in Hm. destruct Hm as [Hm|Hm]; [|tauto].
        right. exists p. simpl. auto.
      * right. exists y. simpl. auto.
Qed.

Lemma remove_dups_distinct (l : list ty) :
  forall seen, distinct (remove_dups seen l).
Proof.
  induction l as [|p rest IH]; simpl; intros seen; [exact I|].
  destruct (mem p seen) eqn:E; [apply IH|].
  simpl. split; [|apply IH].
  apply mem_false. intros y Hy. apply remove_dups_In in Hy.
  destruct Hy as [_ Hm]. simpl in Hm. apply orb_false_iff in Hm.
  rewrite ty_eqb_sym. tauto.
Qed.

Lemma remove_dups_same_set (l : list ty) : same_set l (remove_dups [] l).
Proof.
  split.
  - intros x Hx. destruct (remove_dups_covers l [] x Hx) as [Hm|Hy].
    + discriminate.
    + exact Hy.
  - apply covered_incl. intros x Hx. apply remove_dups_In in Hx. tauto.
Qed.

(** A set all of whose members equal one another has at most one member. *)
Lemma distinct_all_equal (a : ty) (l : list ty) :
  distinct l -> (forall x, In x l -> ty_eqb x a = true) ->
  l = [] \/ exists x, l = [x].
Proof.
  destruct l as [|x [|y r]]; simpl; [eauto | eauto |].
  intros [Hx Hd] Hall.
  exfalso. apply orb_false_iff in Hx. destruct Hx as [Hxy _].
  assert (ty_eqb x y = true).
  { apply ty_eqb_trans with a; [auto|]. rewrite ty_eqb_sym. auto. }
  congruence.
Qed.

Lemma remove_dups_Forall (P : ty -> Prop) (l : list ty) :
  forall seen, Forall P l -> Forall P (remove_dups seen l).
Proof.
  induction l as [|p rest IH]; simpl; intros seen Hl; [constructor|].
  inversion Hl as [|? ? Hp Hrest]; subst.
  destruct (mem p seen); [auto|]. constructor; auto.
Qed.

Lemma flatten_params_flat (ps : list ty) :
  Forall (fun p => flat p = true) ps ->
  Forall (fun a => is_Union a = false) (flatten_params ps).
Proof.
  induction 1 as [|p ps Hp _ IH]; simpl; [constructor|].
  apply Forall_app. split; [|exact IH].
  destruct p; simpl; try (repeat constructor).
  unfold flat in Hp. simpl in Hp. rewrite forallb_forall in Hp.
  apply Forall_forall. intros a Ha. apply negb_true_iff. auto.
Qed.

(** [Union[...]] of flat parameters is flat. *)
Lemma Union_of_flat (ps : list ty) :
  Forall (fun p => flat p = true) ps -> flat (Union_of ps) = true.
Proof.
  intros Hps. apply flatten_params_flat in Hps.
  apply (remove_dups_Forall _ _ []) in Hps. unfold Union_of.
  assert (Hall : flat (TUnion (remove_dups [] (flatten_params ps))) = true).
  { unfold flat. simpl. apply forallb_forall. rewrite Forall_forall in Hps.
    intros a Ha. apply negb_true_iff. auto. }
  destruct (remove_dups [] (flatten_params ps)) as [|a [|b l]]; trivial.
  inversion Hps as [|? ? Ha _]; subst.
  destruct a; try reflexivity. discriminate.
Qed.

(** [Union[...]] depends on the set of its flattened parameters only. *)
Lemma Union_of_same_set (ps qs : list ty) :
  same_set (flatten_params ps) (flatten_params qs) ->
  ty_eqb (Union_of ps) (Union_of qs) = true.
Proof.
  intros Hs. unfold Union_of.
  pose proof (remove_dups_same_set (flatten_params ps)) as Hp.
  pose proof (remove_dups_same_set (flatten_params qs)) as Hq.
  pose proof (remove_dups_distinct (flatten_params ps) []) as Dp.
  pose proof (remove_dups_distinct (flatten_params qs) []) as Dq.
  assert (Hpq : same_set (remove_dups [] (flatten_params ps))
                         (remove_dups [] (flatten_params qs))).
  { eapply same_set_trans; [apply same_set_sym, Hp|].
    eapply same_set_trans; [apply Hs|apply Hq]. }
  clear Hs Hp Hq.
  destruct (remove_dups [] (flatten_params ps)) as [|a [|a' l]] eqn:Ea;
    destruct (remove_dups [] (flatten_params qs)) as [|b [|b' m]] eqn:Eb;
    try (apply ty_eqb_union; exact Hpq).
  - (* none against one *)
    destruct Hpq as [_ H]. destruct (H b (or_introl eq_refl)) as [? [[] _]].
  - (* one against none *)
    destruct Hpq as [H _]. destruct (H a (or_introl eq_refl)) as [? [[] _]].
  - (* one against one *)
    destruct Hpq as [H _]. destruct (H a (or_introl eq_refl)) as [y [[<-|[]] E]].
    exact E.
  - (* one against several *)
    exfalso. destruct Hpq as [_ H].
    destruct (distinct_all_equal a (b :: b' :: m) Dq) as [E|[x E]];
      try discriminate.
    intros x Hx. destruct (H x Hx) as [y [[<-|[]] E]]. exact E.
  - (* several against one *)
    exfalso. destruct Hpq as [H _].
    destruct (distinct_all_equal b (a :: a' :: l) Dp) as [E|[x E]];
      try discriminate.
    intros x Hx. destruct (H x Hx) as [y [[<-|[]] E]]. exact E.
Qed.

Lemma distinct_middle (y : ty) (l1 l2 : list ty) :
  distinct (l1 ++ y :: l2) ->
  distinct (l1 ++ l2) /\ forall z, In z (l1 ++ l2) -> ty_eqb z y = false.
Proof.
  induction l1 as [|a l1 IH]; simpl.
  - intros [Hm Hd]. split; [exact Hd|].
    intros z Hz. rewrite ty_eqb_sym. revert z Hz. apply mem_false, Hm.
  - intros [Hm Hd]. destruct (IH Hd) as [Hd' Hz].
    rewrite mem_false in Hm. repeat split.
    + apply mem_false. intros z Hin. apply Hm.
      apply in_app_iff in Hin. apply in_app_iff. simpl. tauto.
    + exact Hd'.
    + intros z [<-|Hin]; [|auto].
      apply Hm. apply in_app_iff. simpl. tauto.
Qed.

(** *** The hash respects [==] *)

Section Hashing.
Context `{Host}.

Lemma py_hash_union (args : list ty) :
  py_hash (TUnion args) =
  hash_tuple [hash_id "typing.Union";
              hash_frozenset (map py_hash (remove_dups [] args))].
Proof.
  simpl. do 4 f_equal. generalize (@nil ty) as seen.
  induction args as [|x r IH]; intros seen; simpl; [reflexivity|].
  destruct (mem x seen); [apply IH|].
  simpl. f_equal. apply IH.
Qed.

(** Two listings of one set have the same hashes, up to order. *)
Lemma hashes_of_same_set (xs : list ty) :
  forall ys,
    distinct xs -> distinct ys -> same_set xs ys ->
    (forall x, In x xs -> forall b, ty_eqb x b = true -> py_hash x = py_hash b) ->
    Permutation (map py_hash xs) (map py_hash ys).
Proof.
  induction xs as [|x xs IH]; intros ys Dx Dy [Hxy Hyx] Hh.
  - destruct ys as [|y ys]; [constructor|].
    destruct (Hyx y (or_introl eq_refl)) as [? [[] _]].
  - destruct (Hxy x (or_introl eq_refl)) as [y [Hy Exy]].
    destruct (in_split _ _ Hy) as [l1 [l2 ->]].
    destruct (distinct_middle _ _ _ Dy) as [Dy' Hfresh].
    destruct Dx as [Hx Dx]. rewrite mem_false in Hx.
    rewrite map_app. simpl.
    rewrite (Hh x (or_introl eq_refl) y Exy).
    apply Permutation_cons_app. rewrite <- map_app.
    apply IH; trivial.
    + split.
      * intros x' Hx'. destruct (Hxy x' (or_intror Hx')) as [y' [Hy' E]].
        exists y'. split; [|exact E].
        apply in_app_iff in Hy'. apply in_app_iff.
        destruct Hy' as [Hy'|[<-|Hy']]; [tauto| |tauto].
        exfalso. assert (ty_eqb x x' = true).
        { apply ty_eqb_trans with y; [exact Exy|].
          rewrite ty_eqb_sym. exact E. }
        rewrite (Hx x' Hx') in *. discriminate.
      * intros y' Hy'.
        assert (Hin : In y' (l1 ++ y :: l2)).
        { apply in_app_iff in Hy'. apply in_app_iff. simpl. tauto. }
        destruct (Hyx y' Hin) as [x' [[<-|Hx'] E]]; [|eauto].
        exfalso. assert (ty_eqb y' y = true) by eauto using ty_eqb_trans.
        rewrite (Hfresh y' Hy') in *. discriminate.
    + intros x' Hx'. apply Hh. right. exact Hx'.
Qed.

Hypothesis unordered : frozenset_hash_unordered.

Lemma py_hash_respects_eq (a : ty) :
  forall b, ty_eqb a b = true -> py_hash a = py_hash b.
Proof.
  induction a as [n | args IH | t IH | i n vt IH] using ty_ind';
    intros [m | args' | t' | i' m vt']; try discriminate.
  - simpl. rewrite String.eqb_eq. congruence.
  - intros E. apply ty_eqb_union in E. rewrite !py_hash_union.
    do 3 f_equal. apply unordered.
    rewrite Forall_forall in IH.
    apply hashes_of_same_set.
    + apply remove_dups_distinct.
    + apply remove_dups_distinct.
    + eapply same_set_trans; [apply same_set_sym, remove_dups_same_set|].
      eapply same_set_trans; [exact E|apply remove_dups_same_set].
    + intros x Hx. apply IH. apply remove_dups_In in Hx. tauto.
  - simpl. intros E. rewrite (IH _ E). reflexivity.
  - simpl. intros E. rewrite (IH _ E). reflexivity.
Qed.

End Hashing.

(** *** The reference host follows the rules asked of the oracle *)

Lemma reference_eq (a b : ty) :
  ty_eqb a b = true -> reference_is_subtype a b = true.
Proof.
  intros E. destruct a, b; simpl in *; try discriminate; rewrite E; reflexivity.
Qed.

Lemma reference_union_l (xs : list ty) (b : ty) :
  reference_is_subtype (TUnion xs) b =
  ty_eqb (TUnion xs) b ||
  (is_Tuple b || forallb (fun x => reference_is_subtype x b) xs).
Proof. destruct b; reflexivity. Qed.

Lemma reference_union_r (a : ty) (bs : list ty) :
  is_Union a = false ->
  reference_is_subtype a (TUnion bs) = existsb (reference_is_subtype a) bs.
Proof. destruct a; simpl; intros E; try discriminate; reflexivity. Qed.

Lemma inside_union_members (xs : list ty) (b : ty) :
  inside (TUnion xs) b -> forall x, In x xs -> inside x b.
Proof.
  induction 1 as [b E | y bs Hy _ IH]; intros x Hx.
  - destruct b as [m | ys | t | i m vt]; try discriminate.
    apply ty_eqb_union in E. destruct E as [Hc _].
    destruct (Hc x Hx) as [y [Hy E]].
    apply inside_alternative with y; [exact Hy|].
    apply inside_here, E.
  - apply inside_alternative with y; auto.
Qed.

(** What sits inside a type is below it. *)
Lemma reference_inside (x : ty) :
  forall b, inside x b -> reference_is_subtype x b = true.
Proof.
  induction x as [n | xs IHx | t IHx | i n vt IHx] using ty_ind';
    intros b Hin;
    try (induction Hin as [b E | y bs Hy _ IH];
         [ apply reference_eq, E
         | rewrite reference_union_r by reflexivity;
           apply existsb_exists; eauto ]).
  rewrite Forall_forall in IHx.
  destruct Hin as [b E | y bs Hy Hin]; [apply reference_eq, E|].
  rewrite reference_union_l. apply orb_true_iff. right. simpl.
  apply forallb_forall. intros x Hx. apply (IHx x Hx).
  apply inside_alternative with y; [exact Hy|].
  apply (inside_union_members xs y Hin x Hx).
Qed.

Lemma reference_accepts_equal : @accepts_equal reference_host.
Proof. intros a b. apply reference_eq. Qed.

Lemma reference_tuple_covariant : @tuple_covariant reference_host.
Proof.
  intros a b. change (ty_eqb a b || reference_is_subtype a b
                      = reference_is_subtype a b).
  destruct (ty_eqb a b) eqn:E; [|reflexivity].
  rewrite (reference_eq _ _ E). reflexivity.
Qed.

Lemma reference_union_right_any : @union_right_any reference_host.
Proof. intros a bs. apply reference_union_r. Qed.

Lemma reference_union_left_all : @union_left_all reference_host.
Proof.
  intros args b Hb. change (@is_subtype reference_host) with reference_is_subtype.
  rewrite reference_union_l, Hb.
  destruct (ty_eqb (TUnion args) b) eqn:E; [|reflexivity].
  simpl. symmetry. apply forallb_forall. intros x Hx.
  destruct b as [m | bs | t' | i' m vt']; try discriminate.
  apply ty_eqb_union in E. destruct E as [Hc _].
  destruct (Hc x Hx) as [y [Hy E]].
  apply reference_inside.
  apply inside_alternative with y; [exact Hy|].
  apply inside_here, E.
Qed.

Lemma reference_frozenset_hash_unordered :
  @frozenset_hash_unordered reference_host.
Proof.
  intros xs ys HP. simpl. induction HP; simpl; lia.
Qed.

(** *** [Variadic[...]] *)

Lemma getitem_rejects_false (o : obj) : getitem_rejects o = false.
Proof. unfold getitem_rejects, class_truth. rewrite orb_true_r. reflexivity. Qed.

Lemma type_check_all_types (ts : list ty) :
  type_check_all (map OType ts) = Some ts.
Proof. induction ts as [|t ts IH]; simpl; [|rewrite IH]; reflexivity. Qed.

Lemma type_check_all_inv (l : list obj) :
  forall ts, type_check_all l = Some ts -> l = map OType ts.
Proof.
  induction l as [|[z | t | items] l IH]; simpl; intros ts E; try discriminate.
  - injection E as <-. reflexivity.
  - destruct (type_check_all l) as [ts'|]; [|discriminate].
    injection E as <-. simpl. f_equal. apply IH. reflexivity.
Qed.

Section Getitem.
Context `{Host}.

Lemma Variadic_getitem_types (ts : list ty) (n : nat) :
  ts <> [] ->
  Variadic_getitem (OTuple (map OType ts)) n =
  (Ok (TVariadic n (class_name (map OType ts)) (Union_of ts)), S n).
Proof.
  intros Hne. unfold Variadic_getitem. rewrite getitem_rejects_false.
  cbn [as_tuple]. unfold Union_getitem. rewrite type_check_all_types.
  destruct ts; [congruence|reflexivity].
Qed.

Lemma Variadic_getitem_type (t : ty) (n : nat) :
  Variadic_getitem (OType t) n =
  (Ok (TVariadic n (class_name [OType t]) (Union_of [t])), S n).
Proof. unfold Variadic_getitem. rewrite getitem_rejects_false. reflexivity. Qed.

Lemma Variadic_getitem_ok (spec : obj) (n n' : nat) (p : ty) :
  Variadic_getitem spec n = (Ok p, n') ->
  exists ts,
    as_tuple spec = map OType ts /\
    p = TVariadic n (class_name (as_tuple spec)) (Union_of ts) /\
    n' = S n.
Proof.
  unfold Variadic_getitem. rewrite getitem_rejects_false.
  unfold Union_getitem.
  destruct (as_tuple spec) as [|o l] eqn:Es; [discriminate|].
  destruct (type_check_all (o :: l)) as [ts|] eqn:Et; [|discriminate].
  intros E. injection E as <- <-. exists ts.
  rewrite (type_check_all_inv _ _ Et). auto.
Qed.

End Getitem.


Lemma Union_of_two_classes (a b : string) :
  Union_of [TClass a; TClass b] =
  if String.eqb b a then TClass a else TUnion [TClass a; TClass b].
Proof.
  unfold Union_of. simpl. destruct (String.eqb b a); reflexivity.
Qed.

Lemma getitem_fst_ok `{Host} (spec : obj) (n : nat) (p : ty) :
  fst (Variadic_getitem spec n) = Ok p ->
  exists ts,
    p = TVariadic n (class_name (as_tuple spec)) (Union_of ts) /\
    as_tuple spec = map OType ts.
Proof.
  destruct (Variadic_getitem spec n) as [r n'] eqn:E. simpl. intros ->.
  apply Variadic_getitem_ok in E. destruct E as [ts [E1 [E2 _]]]. eauto.
Qed.

Lemma subclasscheck_pattern `{Host} (P : ty) (i : nat) (n : string) (vt : ty) :
  subclasscheck P (TVariadic i n vt) =
  is_subtype (TTuple vt) (TTuple (variadic_type P)).
Proof. reflexivity. Qed.

Lemma subclasscheck_ordinary `{Host} (P c : ty) :
  isvariadic (OType c) = false ->
  subclasscheck P c = is_subtype (TTuple c) (TTuple (variadic_type P)).
Proof. intros Hc. unfold subclasscheck. rewrite Hc. reflexivity. Qed.

(** ** Properties *)

Section Properties.
  Context `{Host}.

(** C1 (the code departs from it).  The test of line 75 never holds: the
    class of any value is a true object, so [__getitem__] never raises its
    [ValueError], whatever the argument.  [Variadic[42]] goes on to
    [typing.Union[(42,)]], which refuses it with a [TypeError] of its own. *)
Theorem getitem_never_raises_ValueError :
  (forall spec, getitem_rejects spec = false) /\
  (forall spec next msg,
     fst (Variadic_getitem spec next) <> Raise (ValueError msg)) /\
  Variadic_getitem (OInt 42) 0 =
  (Raise (TypeError "Union[arg, ...]: each arg must be a type."), 0%nat).
Proof.
  split; [exact getitem_rejects_false|]. split; [|reflexivity].
  intros spec next msg. unfold Variadic_getitem.
  rewrite getitem_rejects_false. unfold Union_getitem.
  destruct (as_tuple spec); [discriminate|].
  destruct (type_check_all _); discriminate.
Qed.

(** C2.  [safe_subtype] on a union answers [True] exactly when the oracle
    accepts one of the alternatives; on any other type it is the oracle's
    answer.  When no alternative is itself a union, which is how
    [typing.Union] builds its unions ([Union_of_flat]), the first statement
    also reads with [safe_subtype] on the alternatives. *)
Theorem safe_subtype_union_any (args : list ty) (c : ty) :
  (safe_subtype (TUnion args) c = true <->
   exists a, In a args /\ is_subtype a c = true) /\
  (forall a, is_Union a = false -> safe_subtype a c = is_subtype a c) /\
  (flat (TUnion args) = true ->
   (safe_subtype (TUnion args) c = true <->
    exists a, In a args /\ safe_subtype a c = true)).
Proof.
  assert (Hd : forall a, is_Union a = false -> safe_subtype a c = is_subtype a c).
  { intros a Ha. unfold safe_subtype. rewrite Ha. reflexivity. }
  assert (Hu : safe_subtype (TUnion args) c = true <->
               exists a, In a args /\ is_subtype a c = true).
  { unfold safe_subtype. simpl. apply existsb_exists. }
  split; [exact Hu|]. split; [exact Hd|].
  intros Hflat. unfold flat in Hflat. simpl in Hflat.
  rewrite forallb_forall in Hflat. rewrite Hu.
  split; intros [a [Ha E]]; exists a; (split; [exact Ha|]).
  - rewrite Hd; [exact E|]. apply negb_true_iff. auto.
  - rewrite <- Hd; [exact E|]. apply negb_true_iff. auto.
Qed.

(** C7.  [isvariadic] is a total function; it answers [True] on whatever
    [Variadic[...]] returns, and [False] on classes, unions, [Tuple[t, ...]]
    and on values that are not types. *)
Theorem isvariadic_exact :
  (forall spec n p n',
     Variadic_getitem spec n = (Ok p, n') -> isvariadic (OType p) = true) /\
  (forall T n, exists p,
     fst (Variadic_getitem (OType T) n) = Ok p /\ isvariadic (OType p) = true) /\
  (forall name, isvariadic (OType (TClass name)) = false) /\
  (forall args, isvariadic (OType (TUnion args)) = false) /\
  (forall t, isvariadic (OType (TTuple t)) = false) /\
  (forall z, isvariadic (OInt z) = false) /\
  (forall items, isvariadic (OTuple items) = false).
Proof.
  repeat split.
  - intros spec n p n' E. apply Variadic_getitem_ok in E.
    destruct E as [ts [_ [-> _]]]. reflexivity.
  - intros T n. rewrite Variadic_getitem_type. eexists. split; reflexivity.
Qed.

(** C5.  The class made from [(T1, T2)] equals the one made from [(T2, T1)]
    and the one made from [(T1, T2, T1)]: all three calls succeed, and
    [__eq__] compares the [variadic_type] unions, which are equal as sets. *)
Theorem getitem_order_and_duplicates (T1 T2 : ty) (n1 n2 n3 : nat) :
  exists p q r,
    fst (Variadic_getitem (OTuple [OType T1; OType T2]) n1) = Ok p /\
    fst (Variadic_getitem (OTuple [OType T2; OType T1]) n2) = Ok q /\
    fst (Variadic_getitem (OTuple [OType T1; OType T2; OType T1]) n3) = Ok r /\
    VariadicSignatureType_eq p (OType q) = true /\
    VariadicSignatureType_eq p (OType r) = true /\
    VariadicSignatureType_eq p (OType q) =
      ty_eqb (variadic_type p) (variadic_type q) /\
    VariadicSignatureType_eq p (OType r) =
      ty_eqb (variadic_type p) (variadic_type r).
Proof.
  do 3 eexists.
  split; [reflexivity|]. split; [reflexivity|]. split; [reflexivity|].
  unfold VariadicSignatureType_eq. cbn [isvariadic variadic_type andb].
  assert (E1 : ty_eqb (Union_of [T1; T2]) (Union_of [T2; T1]) = true).
  { apply Union_of_same_set.
    apply same_set_incl; intros x; simpl; rewrite !in_app_iff; tauto. }
  assert (E2 : ty_eqb (Union_of [T1; T2]) (Union_of [T1; T2; T1]) = true).
  { apply Union_of_same_set.
    apply same_set_incl; intros x; simpl; rewrite !in_app_iff; tauto. }
  simpl. rewrite E1, E2. auto.
Qed.

(** C10.  [Variadic[T]] and [Variadic[(T,)]] build their class from the same
    one-item tuple: the two classes carry the same [variadic_type], so they
    are equal, either way round, and hash alike. *)
Theorem single_type_is_one_tuple (T : ty) (n m : nat) :
  exists p q,
    fst (Variadic_getitem (OType T) n) = Ok p /\
    fst (Variadic_getitem (OTuple [OType T]) m) = Ok q /\
    variadic_type p = variadic_type q /\
    VariadicSignatureType_eq p (OType q) = true /\
    VariadicSignatureType_eq q (OType p) = true /\
    VariadicSignatureType_hash p = VariadicSignatureType_hash q.
Proof.
  do 2 eexists.
  split; [rewrite Variadic_getitem_type; reflexivity|].
  split; [reflexivity|].
  unfold VariadicSignatureType_eq, VariadicSignatureType_hash.
  cbn [isvariadic variadic_type]. simpl isinstance.
  rewrite ty_eqb_refl. auto.
Qed.

(** C3 (amended).  For a candidate that is not a variadic class,
    [__subclasscheck__] is the oracle's answer on [Tuple[candidate, ...]]
    against [Tuple[S, ...]], asked directly.  [safe_subtype] on the same two
    types gives the same answer, since a [Tuple] is not a union and its union
    rule has nothing to act on.  A union candidate is thus judged by the
    oracle: with an oracle that is covariant in [Tuple[_, ...]] and asks all
    alternatives of a union on the left, it is accepted exactly when every
    alternative is below [S]. *)
Theorem subclasscheck_candidate_by_oracle (P c : ty) :
  isvariadic (OType P) = true ->
  isvariadic (OType c) = false ->
  subclasscheck P c = is_subtype (TTuple c) (TTuple (variadic_type P)) /\
  subclasscheck P c = safe_subtype (TTuple c) (TTuple (variadic_type P)) /\
  (tuple_covariant -> union_left_all ->
   forall args,
     c = TUnion args -> is_Tuple (variadic_type P) = false ->
     subclasscheck P c =
     forallb (fun a => is_subtype a (variadic_type P)) args).
Proof.
  intros HP Hc.
  pose proof (subclasscheck_ordinary P c Hc) as E.
  split; [exact E|]. split; [exact E|].
  intros Htc Hul args -> HS. rewrite E, Htc. apply Hul, HS.
Qed.


(** C6.  When the hash of a frozenset does not depend on the order of its
    members, two equal variadic classes have the same hash.  Two calls
    [Variadic[T]] in a row return two different class objects that are equal
    and hash alike. *)
Theorem equal_patterns_hash_equal :
  frozenset_hash_unordered ->
  (forall P Q,
     isvariadic (OType P) = true ->
     VariadicSignatureType_eq P (OType Q) = true ->
     VariadicSignatureType_hash P = VariadicSignatureType_hash Q) /\
  (forall T n, exists p q n',
     Variadic_getitem (OType T) n = (Ok p, n') /\
     fst (Variadic_getitem (OType T) n') = Ok q /\
     p <> q /\
     VariadicSignatureType_eq p (OType q) = true /\
     VariadicSignatureType_hash p = VariadicSignatureType_hash q).
Proof.
  intros Hun. split.
  - intros P Q _ E. unfold VariadicSignatureType_eq in E.
    apply andb_true_iff in E. destruct E as [_ E].
    unfold VariadicSignatureType_hash.
    rewrite (py_hash_respects_eq Hun _ _ E). reflexivity.
  - intros T n. do 3 eexists.
    split; [apply Variadic_getitem_type|].
    split; [rewrite Variadic_getitem_type; reflexivity|].
    split; [intros E; injection E; lia|].
    unfold VariadicSignatureType_eq, VariadicSignatureType_hash.
    cbn [isvariadic variadic_type]. simpl isinstance.
    rewrite ty_eqb_refl. auto.
Qed.

(** C8.  For [P = Variadic[(Int, Str)]] and a class [Float] that the oracle
    puts below neither [Int] nor [Str]: [Int] and [Str] pass the check of
    [P], [Float] does not. *)
Theorem int_str_pattern_accepts (Int Str Float : string) (n : nat) :
  accepts_equal -> tuple_covariant -> union_right_any ->
  is_subtype (TClass Float) (TClass Int) = false ->
  is_subtype (TClass Float) (TClass Str) = false ->
  exists P,
    fst (Variadic_getitem (OTuple [OType (TClass Int); OType (TClass Str)]) n)
      = Ok P /\
    subclasscheck P (TClass Int) = true /\
    subclasscheck P (TClass Str) = true /\
    subclasscheck P (TClass Float) = false.
Proof.
  intros Hae Htc Hur HfI HfS.
  assert (Hrefl : forall a, is_subtype a a = true).
  { intros a. apply Hae, ty_eqb_refl. }
  eexists. split; [reflexivity|].
  rewrite !subclasscheck_ordinary by reflexivity. cbn [variadic_type].
  rewrite Union_of_two_classes, !Htc.
  destruct (String.eqb Str Int) eqn:E.
  - apply String.eqb_eq in E. subst Str. rewrite Hrefl. auto.
  - rewrite !Hur by reflexivity. simpl.
    rewrite !Hrefl, HfI, HfS, orb_true_r. auto.
Qed.

(** C9.  With an oracle that accepts equal types, every class that
    [Variadic[...]] returns passes its own check, and so does the class a
    second call with the same argument returns. *)
Theorem subclasscheck_reflexive :
  accepts_equal ->
  (forall T n, exists p,
     fst (Variadic_getitem (OType T) n) = Ok p /\ subclasscheck p p = true) /\
  (forall spec n m p q,
     fst (Variadic_getitem spec n) = Ok p ->
     fst (Variadic_getitem spec m) = Ok q ->
     subclasscheck p q = true).
Proof.
  intros Hae.
  assert (Hrefl : forall a, is_subtype a a = true).
  { intros a. apply Hae, ty_eqb_refl. }
  split.
  - intros T n. eexists.
    split; [rewrite Variadic_getitem_type; reflexivity|].
    apply Hrefl.
  - intros spec n m p q Hp Hq.
    apply getitem_fst_ok in Hp. destruct Hp as [ts [-> Es]].
    apply getitem_fst_ok in Hq. destruct Hq as [us [-> Es']].
    assert (ts = us).
    { rewrite Es in Es'. clear -Es'. revert us Es'.
      induction ts as [|t ts IH]; intros [|u us] E; simpl in E;
        try discriminate; trivial.
      injection E as -> E. f_equal. auto. }
    subst us. apply Hrefl.
Qed.

End Properties.

(** ** The properties at concrete types, on the reference host *)

Lemma safe_subtype_union_any_witness :
  flat (TUnion [t_int; t_float]) = true /\
  (safe_subtype (TUnion [t_int; t_float]) t_float = true <->
   exists a, In a [t_int; t_float] /\ safe_subtype a t_float = true).
Proof.
  split; [reflexivity|].
  exact (proj2 (proj2 (safe_subtype_union_any [t_int; t_float] t_float))
           eq_refl).
Defined.

Lemma isvariadic_exact_witness :
  Variadic_getitem (OTuple [OType t_int; OType t_str]) 0
    = (Ok Variadic_int_str, 1%nat) /\
  isvariadic (OType Variadic_int_str) = true.
Proof.
  split; [reflexivity|].
  exact (proj1 isvariadic_exact
           (OTuple [OType t_int; OType t_str]) 0%nat Variadic_int_str 1%nat
           eq_refl).
Defined.

(** C3 (as stated, it fails).  [int] passes the check of
    [Variadic[(int, str)]], and [safe_subtype] accepts [Union[int, float]]
    against [Union[int, str]] on the strength of [int]; still the union
    candidate [Union[int, float]] does not pass the check, because [float] is
    below neither [int] nor [str]. *)
Lemma union_candidate_not_existential :
  fst (Variadic_getitem (OTuple [OType t_int; OType t_str]) 0)
    = Ok Variadic_int_str /\
  subclasscheck Variadic_int_str t_int = true /\
  safe_subtype (TUnion [t_int; t_float]) (variadic_type Variadic_int_str)
    = true /\
  subclasscheck Variadic_int_str (TUnion [t_int; t_float]) = false /\
  ~ ((exists a, In a [t_int; t_float] /\ subclasscheck Variadic_int_str a = true)
     -> subclasscheck Variadic_int_str (TUnion [t_int; t_float]) = true).
Proof.
  repeat split; try reflexivity.
  intros Himp.
  assert (E : subclasscheck Variadic_int_str (TUnion [t_int; t_float]) = true).
  { apply Himp. exists t_int. split; [left|]; reflexivity. }
  discriminate E.
Qed.

Lemma subclasscheck_candidate_by_oracle_witness :
  isvariadic (OType Variadic_int_str) = true /\
  isvariadic (OType (TUnion [t_int; t_float])) = false /\
  subclasscheck Variadic_int_str (TUnion [t_int; t_float]) =
  forallb (fun a => is_subtype a (TUnion [t_int; t_str])) [t_int; t_float].
Proof.
  split; [reflexivity|]. split; [reflexivity|].
  exact (proj2 (proj2 (subclasscheck_candidate_by_oracle
                         Variadic_int_str (TUnion [t_int; t_float])
                         eq_refl eq_refl))
           reference_tuple_covariant reference_union_left_all
           [t_int; t_float] eq_refl eq_refl).
Defined.



Lemma equal_patterns_hash_equal_witness :
  VariadicSignatureType_eq Variadic_int_str
    (OType (TVariadic 5 "Variadic[(str, int)]" (TUnion [t_str; t_int]))) = true /\
  VariadicSignatureType_hash Variadic_int_str =
  VariadicSignatureType_hash
    (TVariadic 5 "Variadic[(str, int)]" (TUnion [t_str; t_int])).
Proof.
  split; [reflexivity|].
  exact (proj1 (equal_patterns_hash_equal reference_frozenset_hash_unordered)
           Variadic_int_str
           (TVariadic 5 "Variadic[(str, int)]" (TUnion [t_str; t_int]))
           eq_refl eq_refl).
Defined.

Lemma int_str_pattern_accepts_witness :
  is_subtype t_float t_int = false /\
  is_subtype t_float t_str = false /\
  exists P,
    fst (Variadic_getitem (OTuple [OType t_int; OType t_str]) 0) = Ok P /\
    subclasscheck P t_int = true /\
    subclasscheck P t_str = true /\
    subclasscheck P t_float = false.
Proof.
  split; [reflexivity|]. split; [reflexivity|].
  exact (int_str_pattern_accepts "int" "str" "float" 0
           reference_accepts_equal reference_tuple_covariant
           reference_union_right_any eq_refl eq_refl).
Defined.

Lemma subclasscheck_reflexive_witness :
  fst (Variadic_getitem (OTuple [OType t_int; OType t_str]) 0)
    = Ok Variadic_int_str /\
  subclasscheck Variadic_int_str
    (TVariadic 1 "Variadic[(int, str)]" (TUnion [t_int; t_str])) = true.
Proof.
  split; [reflexivity|].
  exact (proj2 (subclasscheck_reflexive reference_accepts_equal)
           (OTuple [OType t_int; OType t_str]) 0%nat 1%nat
           Variadic_int_str
           (TVariadic 1 "Variadic[(int, str)]" (TUnion [t_int; t_str]))
           eq_refl eq_refl).
Defined.

(** ** Further properties of the module *)

Lemma In_flatten_params (t : ty) (ts : list ty) :
  In t ts -> is_Union t = false -> In t (flatten_params ts).
Proof.
  intros Hin Hu. unfold flatten_params. apply in_flat_map.
  exists t. rewrite Hu. simpl. auto.
Qed.

Lemma not_union_neq_union (a : ty) (bs : list ty) :
  is_Union a = false -> ty_eqb a (TUnion bs) = false.
Proof. destruct a; simpl; trivial. discriminate. Qed.

(** The union of the parameters, read through the list [remove_dups] keeps. *)
Lemma Union_of_cases (ps : list ty) :
  (exists t, remove_dups [] (flatten_params ps) = [t] /\ Union_of ps = t) \/
  (Union_of ps = TUnion (remove_dups [] (flatten_params ps)) /\
   forall t, remove_dups [] (flatten_params ps) <> [t]).
Proof.
  unfold Union_of.
  destruct (remove_dups [] (flatten_params ps)) as [|a [|b l]].
  - right. split; [reflexivity|]. discriminate.
  - left. eauto.
  - right. split; [reflexivity|]. discriminate.
Qed.

Lemma eq_made (i j : nat) (n m : string) (a b : ty) :
  VariadicSignatureType_eq (TVariadic i n a) (OType (TVariadic j m b)) =
  ty_eqb a b.
Proof. reflexivity. Qed.

Lemma not_union_flat (t : ty) : is_Union t = false -> flat t = true.
Proof. destruct t; simpl; trivial. discriminate. Qed.

Lemma kept_not_union (ps : list ty) :
  Forall (fun p => flat p = true) ps ->
  Forall (fun a => is_Union a = false) (remove_dups [] (flatten_params ps)).
Proof. intros Hps. apply remove_dups_Forall, flatten_params_flat, Hps. Qed.

(** For flat parameters, equal unions come from equal sets of parameters. *)
Lemma Union_of_eq_same_set (ps qs : list ty) :
  Forall (fun p => flat p = true) ps ->
  Forall (fun q => flat q = true) qs ->
  ty_eqb (Union_of ps) (Union_of qs) = true ->
  same_set (flatten_params ps) (flatten_params qs).
Proof.
  intros Fp Fq E.
  apply kept_not_union in Fp. apply kept_not_union in Fq.
  apply same_set_trans with (remove_dups [] (flatten_params ps));
    [apply remove_dups_same_set|].
  apply same_set_trans with (remove_dups [] (flatten_params qs));
    [|apply same_set_sym, remove_dups_same_set].
  destruct (Union_of_cases ps) as [[a [Ea Ua]] | [Ua _]];
    destruct (Union_of_cases qs) as [[b [Eb Ub]] | [Ub _]];
    rewrite Ua, Ub in E.
  - rewrite Ea, Eb. split; intros x [<-|[]]; eexists; split;
      try (left; reflexivity); [|rewrite ty_eqb_sym]; exact E.
  - rewrite Ea in Fp. inversion Fp as [|? ? Ha _]; subst.
    rewrite (not_union_neq_union _ _ Ha) in E. discriminate.
  - rewrite Eb in Fq. inversion Fq as [|? ? Hb _]; subst.
    rewrite ty_eqb_sym, (not_union_neq_union _ _ Hb) in E. discriminate.
  - apply ty_eqb_union, E.
Qed.

Lemma getitem_fst_ok_nonempty `{Host} (spec : obj) (n : nat) (p : ty) :
  fst (Variadic_getitem spec n) = Ok p -> as_tuple spec <> [].
Proof.
  unfold Variadic_getitem. rewrite getitem_rejects_false.
  unfold Union_getitem. destruct (as_tuple spec); simpl; discriminate.
Qed.

Lemma canonical_flat (ts : list ty) :
  (forall t, In t ts -> canonical t) -> Forall (fun t => flat t = true) ts.
Proof.
  intros Hc. apply Forall_forall. intros t Ht.
  destruct (is_Union t) eqn:Eu; [apply (Hc t Ht Eu)|].
  apply not_union_flat, Eu.
Qed.

Lemma canonical_kept_nonempty (ts : list ty) :
  ts <> [] -> (forall t, In t ts -> canonical t) ->
  remove_dups [] (flatten_params ts) <> [].
Proof.
  intros Hne Hc. destruct ts as [|t0 ts']; [congruence|].
  assert (Hfl : flatten_params (t0 :: ts') <> []).
  { unfold flatten_params. simpl. destruct (is_Union t0) eqn:Eu.
    - destruct (Hc t0 (or_introl eq_refl) Eu) as [_ [_ Hlen]].
      destruct (get_Union_params t0); simpl in *; [lia|discriminate].
    - discriminate. }
  destruct (flatten_params (t0 :: ts')) as [|x r]; [congruence|].
  simpl. discriminate.
Qed.

Section More.
Context `{Host}.

(** [__eq__] is an equivalence on variadic classes, and a variadic class
    equals no object that is not one. *)
Theorem VariadicSignatureType_eq_equivalence (P Q R : ty) :
  isvariadic (OType P) = true ->
  isvariadic (OType Q) = true ->
  VariadicSignatureType_eq P (OType P) = true /\
  VariadicSignatureType_eq P (OType Q) = VariadicSignatureType_eq Q (OType P) /\
  (VariadicSignatureType_eq P (OType Q) = true ->
   VariadicSignatureType_eq Q (OType R) = true ->
   VariadicSignatureType_eq P (OType R) = true) /\
  (forall o, isvariadic o = false -> VariadicSignatureType_eq P o = false).
Proof.
  intros HP HQ. unfold VariadicSignatureType_eq. rewrite HP, HQ. simpl.
  split; [apply ty_eqb_refl|]. split; [apply ty_eqb_sym|]. split.
  - intros E1 E2. apply andb_true_iff in E2. destruct E2 as [-> E2]. simpl.
    eapply ty_eqb_trans; eassumption.
  - intros o ->. reflexivity.
Qed.

(** Two tuples of flat types give equal variadic classes exactly when their
    flattened members form the same set. *)
Theorem getitem_equal_iff_same_members (ts us : list ty) (n m : nat) :
  ts <> [] -> us <> [] ->
  Forall (fun t => flat t = true) ts ->
  Forall (fun u => flat u = true) us ->
  exists p q,
    fst (Variadic_getitem (OTuple (map OType ts)) n) = Ok p /\
    fst (Variadic_getitem (OTuple (map OType us)) m) = Ok q /\
    (VariadicSignatureType_eq p (OType q) = true <->
     same_set (flatten_params ts) (flatten_params us)).
Proof.
  intros Hts Hus Ft Fu.
  rewrite (Variadic_getitem_types ts n Hts), (Variadic_getitem_types us m Hus).
  do 2 eexists. split; [reflexivity|]. split; [reflexivity|].
  rewrite eq_made. split.
  - apply Union_of_eq_same_set; assumption.
  - apply Union_of_same_set.
Qed.

(** Two tuples of types with the same set of flattened members give variadic
    classes with the same hash, when the hash of a frozenset does not depend
    on the order of its members. *)
Theorem same_members_hash_equal (ts us : list ty) (n m : nat) :
  frozenset_hash_unordered ->
  ts <> [] -> us <> [] ->
  same_set (flatten_params ts) (flatten_params us) ->
  exists p q,
    fst (Variadic_getitem (OTuple (map OType ts)) n) = Ok p /\
    fst (Variadic_getitem (OTuple (map OType us)) m) = Ok q /\
    VariadicSignatureType_hash p = VariadicSignatureType_hash q.
Proof.
  intros Hun Hts Hus Hs.
  rewrite (Variadic_getitem_types ts n Hts), (Variadic_getitem_types us m Hus).
  do 2 eexists. split; [reflexivity|]. split; [reflexivity|].
  unfold VariadicSignatureType_hash. cbn [variadic_type].
  rewrite (py_hash_respects_eq Hun _ _ (Union_of_same_set _ _ Hs)).
  reflexivity.
Qed.

(** The [variadic_type] of a class made from canonical types is canonical:
    a single type that is not a union, or a union of at least two different
    alternatives, none of them a union. *)
Theorem getitem_variadic_type_canonical (spec : obj) (n : nat) (p : ty) :
  fst (Variadic_getitem spec n) = Ok p ->
  (forall t, In (OType t) (as_tuple spec) -> canonical t) ->
  canonical (variadic_type p).
Proof.
  intros Hp Hcan. pose proof (getitem_fst_ok_nonempty _ _ _ Hp) as Hne.
  apply getitem_fst_ok in Hp. destruct Hp as [ts [-> Es]].
  cbn [variadic_type]. rewrite Es in Hne, Hcan.
  assert (Hc : forall t, In t ts -> canonical t).
  { intros t Ht. apply Hcan. apply in_map, Ht. }
  assert (Fl : Forall (fun t => flat t = true) ts).
  { apply Forall_forall. intros t Ht.
    destruct (is_Union t) eqn:Eu; [apply (Hc t Ht Eu)|].
    apply not_union_flat, Eu. }
  pose proof (kept_not_union ts Fl) as Hk.
  pose proof (remove_dups_distinct (flatten_params ts) []) as Hd.
  destruct (Union_of_cases ts) as [[a [Ea Ua]] | [Ua Hns]]; rewrite Ua.
  - rewrite Ea in Hk. inversion Hk as [|? ? Ha _]; subst.
    intros Hu. rewrite Ha in Hu. discriminate.
  - intros _. simpl. split; [|split; [exact Hd|]].
    + unfold flat. simpl. apply forallb_forall. rewrite Forall_forall in Hk.
      intros a Ha. apply negb_true_iff. auto.
    + destruct ts as [|t0 ts']; [contradiction Hne; reflexivity|].
      assert (Hfl : flatten_params (t0 :: ts') <> []).
      { unfold flatten_params. simpl.
        destruct (is_Union t0) eqn:Eu.
        - destruct (Hc t0 (or_introl eq_refl) Eu) as [_ [_ Hlen]].
          destruct (get_Union_params t0); simpl in *; [lia|discriminate].
        - discriminate. }
      destruct (flatten_params (t0 :: ts')) as [|x r]; [congruence|].
      simpl in *. destruct (remove_dups [x] r) as [|y l] eqn:Er.
      * exfalso. apply (Hns x). reflexivity.
      * simpl. lia.
Qed.

(** A candidate that is neither a union nor a variadic class passes the check
    of [P] exactly when the oracle puts it below one of the members of
    [P.variadic_type]. *)
Theorem subclasscheck_member_rule (P c : ty) :
  tuple_covariant -> union_right_any ->
  isvariadic (OType P) = true ->
  isvariadic (OType c) = false ->
  is_Union c = false ->
  subclasscheck P c = existsb (is_subtype c) (members (variadic_type P)).
Proof.
  intros Htc Hur _ Hc Hu. rewrite (subclasscheck_ordinary P c Hc), Htc.
  unfold members.
  destruct (variadic_type P) as [k | args | t | i k vt]; simpl;
    rewrite ?orb_false_r; trivial.
  apply Hur, Hu.
Qed.

(** Every type listed in the argument of [Variadic[...]], and every
    alternative of a listed union, passes the check of the class made (for
    types that are not variadic classes). *)
Theorem listed_types_pass (ts : list ty) (n : nat) (t : ty) :
  accepts_equal -> tuple_covariant -> union_right_any ->
  In t (flatten_params ts) ->
  is_Union t = false ->
  isvariadic (OType t) = false ->
  exists P,
    fst (Variadic_getitem (OTuple (map OType ts)) n) = Ok P /\
    subclasscheck P t = true.
Proof.
  intros Hae Htc Hur Hin Hu Hv.
  assert (Hts : ts <> []) by (intros ->; contradiction Hin).
  rewrite (Variadic_getitem_types ts n Hts).
  eexists. split; [reflexivity|].
  rewrite (subclasscheck_ordinary _ t Hv), Htc. cbn [variadic_type].
  destruct (remove_dups_same_set (flatten_params ts)) as [Hcov _].
  destruct (Hcov t Hin) as [y [Hy E]].
  destruct (Union_of_cases ts) as [[a [Ea Ua]] | [Ua _]]; rewrite Ua.
  - rewrite Ea in Hy. destruct Hy as [<-|[]]. apply Hae, E.
  - rewrite (Hur _ _ Hu). apply existsb_exists. exists y. auto.
Qed.


(** [safe_subtype(a, a)] holds for every flat type that is not the empty
    union, with an oracle that accepts equal types and puts a type below a
    union when it is below an alternative. *)
Theorem safe_subtype_reflexive (a : ty) :
  accepts_equal -> union_right_any ->
  flat a = true ->
  (is_Union a = true -> get_Union_params a <> []) ->
  safe_subtype a a = true.
Proof.
  intros Hae Hur Hf Hne. unfold safe_subtype.
  destruct a as [k | args | t | i k vt]; simpl;
    try (apply Hae, ty_eqb_refl).
  destruct args as [|x r]; [contradiction (Hne eq_refl); reflexivity|].
  unfold flat in Hf. simpl in Hf. apply andb_true_iff in Hf.
  destruct Hf as [Hx _]. apply negb_true_iff in Hx.
  simpl. rewrite (Hur x (x :: r) Hx). simpl.
  rewrite (Hae x x (ty_eqb_refl x)). reflexivity.
Qed.

(** A variadic class whose members all have an equal among the members of
    another passes the check of that other class: the narrower signature is
    below the wider one. *)
Theorem narrower_pattern_passes (ts us : list ty) (n m : nat) :
  accepts_equal -> tuple_covariant -> union_right_any -> union_left_all ->
  ts <> [] -> us <> [] ->
  (forall t, In t ts -> canonical t) ->
  covered (flatten_params ts) (flatten_params us) ->
  exists p q,
    fst (Variadic_getitem (OTuple (map OType ts)) n) = Ok p /\
    fst (Variadic_getitem (OTuple (map OType us)) m) = Ok q /\
    subclasscheck q p = true.
Proof.
  intros Hae Htc Hur Hul Hts Hus Hcan Hcov.
  rewrite (Variadic_getitem_types ts n Hts), (Variadic_getitem_types us m Hus).
  do 2 eexists. split; [reflexivity|]. split; [reflexivity|].
  rewrite subclasscheck_pattern, Htc. cbn [variadic_type].
  pose proof (kept_not_union ts (canonical_flat ts Hcan)) as Hk.
  rewrite Forall_forall in Hk.
  assert (HA : forall x, In x (remove_dups [] (flatten_params ts)) ->
               exists y, In y (remove_dups [] (flatten_params us)) /\
                         ty_eqb x y = true).
  { intros x Hx. apply remove_dups_In in Hx. destruct Hx as [Hx _].
    destruct (Hcov x Hx) as [u [Hu E]].
    destruct (remove_dups_same_set (flatten_params us)) as [Hc _].
    destruct (Hc u Hu) as [y [Hy E']]. exists y.
    split; [exact Hy|]. eapply ty_eqb_trans; eassumption. }
  assert (Hbelow : forall x, In x (remove_dups [] (flatten_params ts)) ->
                   is_subtype x (Union_of us) = true).
  { intros x Hx. destruct (HA x Hx) as [y [Hy E]].
    destruct (Union_of_cases us) as [[b [Eb Ub]] | [Ub _]]; rewrite Ub.
    - rewrite Eb in Hy. destruct Hy as [<-|[]]. apply Hae, E.
    - rewrite (Hur _ _ (Hk x Hx)). apply existsb_exists. exists y. auto. }
  destruct (Union_of_cases ts) as [[a [Ea Ua]] | [Ua Hns]]; rewrite Ua.
  - apply Hbelow. rewrite Ea. left. reflexivity.
  - destruct (Union_of_cases us) as [[b [Eb Ub]] | [Ub _]].
    + exfalso.
      destruct (distinct_all_equal b (remove_dups [] (flatten_params ts)))
        as [E | [x E]].
      * apply remove_dups_distinct.
      * intros x Hx. destruct (HA x Hx) as [y [Hy E]].
        rewrite Eb in Hy. destruct Hy as [<-|[]]. exact E.
      * exact (canonical_kept_nonempty ts Hts Hcan E).
      * exact (Hns x E).
    + rewrite Hul by (rewrite Ub; reflexivity).
      apply forallb_forall. exact Hbelow.
Qed.

End More.

(** ** The further properties at concrete types, on the reference host *)

Lemma VariadicSignatureType_eq_equivalence_witness :
  isvariadic (OType Variadic_int_str) = true /\
  isvariadic (OType (TVariadic 1 "Variadic[(str, int)]" (TUnion [t_str; t_int])))
    = true /\
  VariadicSignatureType_eq Variadic_int_str
    (OType (TVariadic 1 "Variadic[(str, int)]" (TUnion [t_str; t_int]))) =
  VariadicSignatureType_eq
    (TVariadic 1 "Variadic[(str, int)]" (TUnion [t_str; t_int]))
    (OType Variadic_int_str).
Proof.
  split; [reflexivity|]. split; [reflexivity|].
  exact (proj1 (proj2 (VariadicSignatureType_eq_equivalence
                         Variadic_int_str
                         (TVariadic 1 "Variadic[(str, int)]" (TUnion [t_str; t_int]))
                         Variadic_int eq_refl eq_refl))).
Defined.

Lemma getitem_equal_iff_same_members_witness :
  exists p q,
    fst (Variadic_getitem (OTuple (map OType [t_int; t_str])) 0) = Ok p /\
    fst (Variadic_getitem (OTuple (map OType [t_str; t_int; t_str])) 1) = Ok q /\
    (VariadicSignatureType_eq p (OType q) = true <->
     same_set (flatten_params [t_int; t_str])
              (flatten_params [t_str; t_int; t_str])).
Proof.
  apply (getitem_equal_iff_same_members [t_int; t_str] [t_str; t_int; t_str]);
    try discriminate; repeat constructor.
Defined.

Lemma same_members_hash_equal_witness :
  same_set (flatten_params [t_int; t_str]) (flatten_params [t_str; t_int; t_str]) /\
  exists p q,
    fst (Variadic_getitem (OTuple (map OType [t_int; t_str])) 0) = Ok p /\
    fst (Variadic_getitem (OTuple (map OType [t_str; t_int; t_str])) 1) = Ok q /\
    VariadicSignatureType_hash p = VariadicSignatureType_hash q.
Proof.
  assert (Hs : same_set (flatten_params [t_int; t_str])
                        (flatten_params [t_str; t_int; t_str])).
  { apply same_set_incl; intros x; simpl; tauto. }
  split; [exact Hs|].
  apply (same_members_hash_equal [t_int; t_str] [t_str; t_int; t_str] 0 1
           reference_frozenset_hash_unordered); try discriminate; exact Hs.
Defined.

Lemma getitem_variadic_type_canonical_witness :
  fst (Variadic_getitem (OTuple [OType t_int; OType t_str; OType t_int]) 0)
    = Ok (TVariadic 0 "Variadic[(int, str, int)]" (TUnion [t_int; t_str])) /\
  canonical (TUnion [t_int; t_str]).
Proof.
  assert (Hmade :
    fst (Variadic_getitem (OTuple [OType t_int; OType t_str; OType t_int]) 0)
      = Ok (TVariadic 0 "Variadic[(int, str, int)]" (TUnion [t_int; t_str])))
    by reflexivity.
  split; [exact Hmade|].
  apply (getitem_variadic_type_canonical _ _ _ Hmade).
  intros t [E|[E|[E|[]]]]; injection E as <-; intros Hu; discriminate Hu.
Defined.

Lemma subclasscheck_member_rule_witness :
  subclasscheck Variadic_int_str t_float =
  existsb (is_subtype t_float) [t_int; t_str].
Proof.
  exact (subclasscheck_member_rule Variadic_int_str t_float
           reference_tuple_covariant reference_union_right_any
           eq_refl eq_refl eq_refl).
Defined.

Lemma listed_types_pass_witness :
  In t_str (flatten_params [t_int; t_str]) /\
  exists P,
    fst (Variadic_getitem (OTuple (map OType [t_int; t_str])) 0) = Ok P /\
    subclasscheck P t_str = true.
Proof.
  assert (Hin : In t_str (flatten_params [t_int; t_str]))
    by (simpl; tauto).
  split; [exact Hin|].
  exact (listed_types_pass [t_int; t_str] 0 t_str
           reference_accepts_equal reference_tuple_covariant
           reference_union_right_any Hin eq_refl eq_refl).
Defined.


Lemma safe_subtype_reflexive_witness :
  flat (TUnion [t_int; t_str]) = true /\
  safe_subtype (TUnion [t_int; t_str]) (TUnion [t_int; t_str]) = true.
Proof.
  split; [reflexivity|].
  apply (safe_subtype_reflexive (TUnion [t_int; t_str])
           reference_accepts_equal reference_union_right_any eq_refl).
  intros _. discriminate.
Defined.

Lemma narrower_pattern_passes_witness :
  covered (flatten_params [t_int]) (flatten_params [t_int; t_str]) /\
  exists p q,
    fst (Variadic_getitem (OTuple (map OType [t_int])) 0) = Ok p /\
    fst (Variadic_getitem (OTuple (map OType [t_int; t_str])) 1) = Ok q /\
    subclasscheck q p = true.
Proof.
  assert (Hc : covered (flatten_params [t_int]) (flatten_params [t_int; t_str])).
  { apply covered_incl. intros x. simpl. tauto. }
  split; [exact Hc|].
  apply (narrower_pattern_passes [t_int] [t_int; t_str] 0 1
           reference_accepts_equal reference_tuple_covariant
           reference_union_right_any reference_union_left_all);
    try discriminate; [|exact Hc].
  intros t [<-|[]] Hu. discriminate Hu.
Defined.
